(** * LiteX-Boards: the Nereid PCIe UART bridge, the MSI index allocation
      and the ULX3S platform constructor

    A shallow embedding of
      - [litex_boards/partner/targets/nereid.py]  (class [PCIeUART], the MSI
        loop of [NereidSoC.__init__], [generate_software_header]);
      - [litex_boards/platforms/radiona_ulx3s.py] ([Platform.__init__] and
        its IO tables).

    Migen semantics used throughout: a [comb] statement is a function of the
    values of the current cycle, a [sync] statement computes the value a
    register takes at the next clock edge from the values of the current
    cycle, and a [Signal(n)] holds its value modulo [2^n]. *)

From Stdlib Require Import ZArith Bool Lia.
From stdpp Require Import base tactics option list sorting strings.

(** * Part I: the embedding *)

(** ** Signals *)

(** The value kept by a [Signal(n)] when [v] is assigned to it. *)
Definition trunc (n : Z) (v : Z) : Z := Z.land v (Z.ones n).

(** The values an 8-bit signal can hold. *)
Definition is_byte (v : Z) : Prop := (0 <= v < 256)%Z.

(** ** The PCIe UART bridge ([class PCIeUART] in nereid.py) *)

(** The registers of the bridge.  [uart.source.valid] is driven from
    [self.sync], hence a register; [tx_data] is a [CSRStorage(8)]. *)
Record Regs := mkRegs {
  source_valid : bool;       (* uart.source.valid *)
  tx_data_storage : Z        (* self.tx_data.storage *)
}.

(** What the environment drives in one cycle: the write strobes of the
    CSR bus ([re], with the written value [r] for the storage), the upstream
    channel [uart.sink] and the downstream consumer's [uart.source.ready]. *)
Record Inputs := mkInputs {
  rx_ready_re : bool;        (* self.rx_ready.re *)
  tx_valid_re : bool;        (* self.tx_valid.re *)
  tx_data_re : bool;         (* write strobe of tx_data *)
  tx_data_r : Z;             (* value written to tx_data *)
  sink_valid : bool;         (* uart.sink.valid *)
  sink_data : Z;             (* uart.sink.data *)
  source_ready : bool        (* uart.source.ready *)
}.

(** What the bridge drives in one cycle. *)
Record Outputs := mkOutputs {
  rx_valid_status : bool;    (* self.rx_valid.status *)
  sink_ready : bool;         (* uart.sink.ready *)
  rx_data_status : Z;        (* self.rx_data.status *)
  tx_ready_status : bool;    (* self.tx_ready.status *)
  source_valid_out : bool;   (* uart.source.valid, as the consumer sees it *)
  source_data : Z            (* uart.source.data *)
}.

(** Both registers reset to 0. *)
Definition reset : Regs := mkRegs false 0.

(** The two [self.comb] blocks. *)
Definition comb (s : Regs) (i : Inputs) : Outputs :=
  {| rx_valid_status := sink_valid i;
     sink_ready := rx_ready_re i;
     rx_data_status := trunc 8 (sink_data i);
     tx_ready_status := negb (source_valid s);
     source_valid_out := source_valid s;
     source_data := trunc 8 (tx_data_storage s) |}.

(** Modelled from the spec: the [CSRStorage] class of the framework, which is
    not part of this repository; [tx_data] is "read/write storage, 8 bits:
    staged transmit byte", a single-writer register updated once per time
    step: a write in a cycle is visible in the storage from the next one. *)
Definition CSRStorage_next (storage : Z) (re : bool) (r : Z) : Z :=
  if re then trunc 8 r else storage.

(** The [self.sync] block:
      If(tx_valid.re, source.valid.eq(1)).Elif(source.ready, source.valid.eq(0)) *)
Definition source_valid_next (s : Regs) (i : Inputs) : bool :=
  if tx_valid_re i then true
  else if source_ready i then false
  else source_valid s.

Definition sync (s : Regs) (i : Inputs) : Regs :=
  {| source_valid := source_valid_next s i;
     tx_data_storage := CSRStorage_next (tx_data_storage s) (tx_data_re i) (tx_data_r i) |}.

(** The registers after a sequence of cycles. *)
Fixpoint run (s : Regs) (ins : list Inputs) : Regs :=
  match ins with
  | [] => s
  | i :: ins' => run (sync s i) ins'
  end.

(** The outputs of the bridge, cycle by cycle. *)
Fixpoint trace (s : Regs) (ins : list Inputs) : list Outputs :=
  match ins with
  | [] => []
  | i :: ins' => comb s i :: trace (sync s i) ins'
  end.

(** The registers at the start of every cycle. *)
Fixpoint states (s : Regs) (ins : list Inputs) : list Regs :=
  match ins with
  | [] => []
  | i :: ins' => s :: states (sync s i) ins'
  end.

(** The TX path seen as the state machine of the specification. *)
Inductive tx_state := Idle | Transmitting.

Definition tx_state_of (s : Regs) : tx_state :=
  if source_valid s then Transmitting else Idle.

(** The transition function of the TX state machine as the specification
    words it: Idle -> Transmitting on a [tx_valid] pulse, Transmitting -> Idle
    on downstream [ready], no other transition. *)
Definition spec_tx_next (st : tx_state) (pulse ready : bool) : tx_state :=
  match st with
  | Idle => if pulse then Transmitting else Idle
  | Transmitting => if ready then Idle else Transmitting
  end.



(** ** The MSI index allocation (the loop over [self.msis] in
       [NereidSoC.__init__]) *)

(** Python's [enumerate(l, start)]. *)
Fixpoint enumerate_from {A} (start : nat) (l : list A) : list (nat * A) :=
  match l with
  | [] => []
  | x :: l' => (start, x) :: enumerate_from (S start) l'
  end.

Definition enumerate {A} (l : list A) : list (nat * A) := enumerate_from 0 l.

(** The order in which Python compares the [(name, signal)] tuples of
    [self.msis.items()]: by name, code point by code point.  The second
    components are compared only for equal names, which a dict never has. *)
Definition item_le {V} (x y : string * V) : Prop := String.leb x.1 y.1.

Global Instance item_le_dec {V} (x y : string * V) : Decision (item_le x y).
Proof. unfold item_le. apply _. Defined.

(** Python's [sorted] on such items. *)
Definition sorted {V} (items : list (string * V)) : list (string * V) :=
  merge_sort item_le items.

(** The index given to every source name: position in the sorted order. *)
Definition msi_indices {V} (items : list (string * V)) : list (string * nat) :=
  (fun '(i, (k, _)) => (k, i)) <$> enumerate (sorted items).

(** Lookup of a key in a list of [(key, value)] items, as the subscription
    of a dict does. *)
Fixpoint getitem {V} (d : list (string * V)) (key : string) : option V :=
  match d with
  | [] => None
  | (k, v) :: d' => if String.eqb k key then Some v else getitem d' key
  end.

(** The index of one name, if it is a source. *)
Definition msi_index {V} (items : list (string * V)) (name : string) : option nat :=
  getitem (msi_indices items) name.

(** ** The SoC composition ([NereidSoC.__init__]) *)

(** The two interrupt sources of the DMA engine. *)
Inductive irq_signal := pcie_dma_writer_irq | pcie_dma_reader_irq.

(** The value of a constant published with [add_constant]. *)
Inductive constant_value :=
  | ConstNone
  | ConstInt (v : Z)
  | ConstStr (s : string).

(** What the composition accumulates in the SoC object: the CSR regions
    registered with [add_csr], the interrupts registered with
    [add_interrupt], the [pcie_msi.irqs[i].eq(v)] assignments added to
    [self.comb], and the constants published with [add_constant]. *)
Record SoC := mkSoC {
  integrated_main_ram_size : Z;
  csrs : list string;
  interrupts : list string;
  msi_comb : list (nat * irq_signal);
  constants : list (string * constant_value)
}.

Definition add_csr (name : string) (soc : SoC) : SoC :=
  mkSoC (integrated_main_ram_size soc) (csrs soc ++ [name]) (interrupts soc)
        (msi_comb soc) (constants soc).

Definition add_interrupt (name : string) (soc : SoC) : SoC :=
  mkSoC (integrated_main_ram_size soc) (csrs soc) (interrupts soc ++ [name])
        (msi_comb soc) (constants soc).

Definition add_constant (name : string) (value : constant_value) (soc : SoC) : SoC :=
  mkSoC (integrated_main_ram_size soc) (csrs soc) (interrupts soc)
        (msi_comb soc) (constants soc ++ [(name, value)]).

Definition add_msi_comb (i : nat) (v : irq_signal) (soc : SoC) : SoC :=
  mkSoC (integrated_main_ram_size soc) (csrs soc) (interrupts soc)
        (msi_comb soc ++ [(i, v)]) (constants soc).

(** [self.msis], in the order of the dict display. *)
Definition msis : list (string * irq_signal) :=
  [ ("DMA_WRITER", pcie_dma_writer_irq);
    ("DMA_READER", pcie_dma_reader_irq) ].

(** One iteration of
      for i, (k, v) in enumerate(sorted(self.msis.items())):
          self.comb += self.pcie_msi.irqs[i].eq(v)
          self.add_constant(k + "_INTERRUPT", i) *)
Definition msi_loop_body (soc : SoC) (it : nat * (string * irq_signal)) : SoC :=
  let '(i, (k, v)) := it in
  add_constant (k +:+ "_INTERRUPT") (ConstInt (Z.of_nat i)) (add_msi_comb i v soc).

Definition msi_loop (items : list (string * irq_signal)) (soc : SoC) : SoC :=
  fold_left msi_loop_body (enumerate (sorted items)) soc.

Section Composition.
(** The parts of the framework the composition calls into:
    [SoCSDRAM.__init__] (given [with_uart]), [register_sdram], and for the
    header [get_csr_header] applied to the CSR regions the framework
    derives from the SoC. *)
Context {Regions : Type}.
Variable SoCSDRAM_init : bool -> SoC.
Variable register_sdram : SoC -> SoC.
Variable csr_regions : SoC -> Regions.
Variable get_csr_header :
  Regions -> list (string * constant_value) -> bool -> string.

(** [NereidSoC.__init__], with the items of [self.msis] in the order in
    which the dict yields them. *)
Definition NereidSoC_init_items
    (items : list (string * irq_signal)) (with_pcie_uart : bool) : SoC :=
  let soc := SoCSDRAM_init (negb with_pcie_uart) in
  let soc := add_csr "crg" soc in
  let soc := add_csr "dna" soc in
  let soc := add_csr "xadc" soc in
  let soc :=
    if (integrated_main_ram_size soc =? 0)%Z
    then register_sdram (add_csr "ddrphy" soc)
    else soc in
  let soc := add_csr "pcie_phy" soc in
  let soc := add_csr "pcie_dma" soc in
  let soc := add_csr "pcie_msi" soc in
  let soc := msi_loop items soc in
  if with_pcie_uart
  then add_csr "pcie_uart" (add_interrupt "uart" (add_csr "uart" soc))
  else soc.

Definition NereidSoC_init (with_pcie_uart : bool) : SoC :=
  NereidSoC_init_items msis with_pcie_uart.

(** [generate_software_header]: the file written and its content. *)
Definition generate_software_header (soc : SoC) (filename : string)
  : string * string :=
  let csr_header := get_csr_header (csr_regions soc) (constants soc) false in
  (filename, csr_header).
End Composition.

(** ** The ULX3S platform ([radiona_ulx3s.py]) *)

#[warnings="-register-all"] Inductive Constraint :=
  | Pins (identifiers : list string)
  | IOStandard (name : string)
  | Misc (misc : string)
  | Subsignal (name : string) (constraints : list Constraint).

(** One entry of an IO table: [(name, number, constraint, ...)]. *)
Record Resource := mkResource {
  res_name : string;
  res_number : nat;
  res_constraints : list Constraint
}.

Definition _io_common : list Resource := [
  mkResource "clk25" 0 [Pins ["G2"]; IOStandard "LVCMOS33"];
  mkResource "rst" 0 [Pins ["R1"]; IOStandard "LVCMOS33"];
  mkResource "user_led" 0 [Pins ["B2"]; IOStandard "LVCMOS33"];
  mkResource "user_led" 1 [Pins ["C2"]; IOStandard "LVCMOS33"];
  mkResource "user_led" 2 [Pins ["C1"]; IOStandard "LVCMOS33"];
  mkResource "user_led" 3 [Pins ["D2"]; IOStandard "LVCMOS33"];
  mkResource "user_led" 4 [Pins ["D1"]; IOStandard "LVCMOS33"];
  mkResource "user_led" 5 [Pins ["E2"]; IOStandard "LVCMOS33"];
  mkResource "user_led" 6 [Pins ["E1"]; IOStandard "LVCMOS33"];
  mkResource "user_led" 7 [Pins ["H3"]; IOStandard "LVCMOS33"];
  mkResource "serial" 0 [
      Subsignal "tx" [Pins ["L4"]; IOStandard "LVCMOS33"];
      Subsignal "rx" [Pins ["M1"]; IOStandard "LVCMOS33"]];
  mkResource "sdram_clock" 0 [Pins ["F19"]; IOStandard "LVCMOS33"];
  mkResource "sdram" 0 [
      Subsignal "a" [Pins ["M20 M19 L20 L19 K20 K19 K18 J20"; "J19 H20 N19 G20 G19"]];
      Subsignal "dq" [Pins ["J16 L18 M18 N18 P18 T18 T17 U20"; "E19 D20 D19 C20 E18 F18 J18 J17"]];
      Subsignal "we_n" [Pins ["T20"]];
      Subsignal "ras_n" [Pins ["R20"]];
      Subsignal "cas_n" [Pins ["T19"]];
      Subsignal "cs_n" [Pins ["P20"]];
      Subsignal "cke" [Pins ["F20"]];
      Subsignal "ba" [Pins ["P19 N20"]];
      Subsignal "dm" [Pins ["U19 E20"]];
      IOStandard "LVCMOS33";
      Misc "SLEWRATE=FAST"];
  mkResource "gpio" 0 [
      Subsignal "p" [Pins ["B11"]];
      Subsignal "n" [Pins ["C11"]];
      IOStandard "LVCMOS33"];
  mkResource "gpio" 1 [
      Subsignal "p" [Pins ["A10"]];
      Subsignal "n" [Pins ["A11"]];
      IOStandard "LVCMOS33"];
  mkResource "gpio" 2 [
      Subsignal "p" [Pins ["A9"]];
      Subsignal "n" [Pins ["B10"]];
      IOStandard "LVCMOS33"];
  mkResource "gpio" 3 [
      Subsignal "p" [Pins ["B9"]];
      Subsignal "n" [Pins ["C10"]];
      IOStandard "LVCMOS33"];
  mkResource "usb" 0 [
      Subsignal "d_p" [Pins ["D15"]];
      Subsignal "d_n" [Pins ["E15"]];
      Subsignal "pullup" [Pins ["B12 C12"]];
      IOStandard "LVCMOS33"];
  mkResource "spiflash" 0 [
      Subsignal "cs_n" [Pins ["R2"]];
      Subsignal "miso" [Pins ["V2"]];
      Subsignal "mosi" [Pins ["W2"]];
      Subsignal "wp" [Pins ["Y2"]];
      Subsignal "hold" [Pins ["W1"]];
      IOStandard "LVCMOS33"];
  mkResource "spiflash4x" 0 [
      Subsignal "cs_n" [Pins ["R2"]];
      Subsignal "dq" [Pins ["W2"; "V2"; "Y2"; "W1"]];
      IOStandard "LVCMOS33"];
  mkResource "gpdi" 0 [
      Subsignal "clk_p" [Pins ["A17"]; IOStandard "LVCMOS33D"; Misc "DRIVE=4"];
      Subsignal "data0_p" [Pins ["A12"]; IOStandard "LVCMOS33D"; Misc "DRIVE=4"];
      Subsignal "data1_p" [Pins ["A14"]; IOStandard "LVCMOS33D"; Misc "DRIVE=4"];
      Subsignal "data2_p" [Pins ["A16"]; IOStandard "LVCMOS33D"; Misc "DRIVE=4"]];
  mkResource "oled_spi" 0 [
      Subsignal "clk" [Pins ["P4"]];
      Subsignal "mosi" [Pins ["P3"]];
      IOStandard "LVCMOS33"];
  mkResource "oled_ctl" 0 [
      Subsignal "dc" [Pins ["P1"]];
      Subsignal "resn" [Pins ["P2"]];
      Subsignal "csn" [Pins ["N2"]];
      IOStandard "LVCMOS33"];
  mkResource "j1" 0 [
      Subsignal "gn0" [Pins ["C11"]];
      Subsignal "gp0" [Pins ["B11"]];
      Subsignal "gn1" [Pins ["A11"]];
      Subsignal "gp1" [Pins ["A10"]];
      Subsignal "gn2" [Pins ["B10"]];
      Subsignal "gp2" [Pins ["A9"]];
      Subsignal "gn3" [Pins ["C10"]];
      Subsignal "gp3" [Pins ["B9"]];
      Subsignal "gn4" [Pins ["A8"]];
      Subsignal "gp4" [Pins ["A7"]];
      Subsignal "gn5" [Pins ["B8"]];
      Subsignal "gp5" [Pins ["C8"]];
      Subsignal "gn6" [Pins ["C7"]];
      Subsignal "gp6" [Pins ["C6"]];
      Subsignal "gn7" [Pins ["B6"]];
      Subsignal "gp7" [Pins ["A6"]];
      Subsignal "gn8" [Pins ["A5"]];
      Subsignal "gp8" [Pins ["A4"]];
      Subsignal "gn9" [Pins ["B1"]];
      Subsignal "gp9" [Pins ["A2"]];
      Subsignal "gn10" [Pins ["B4"]];
      Subsignal "gp10" [Pins ["C4"]];
      Subsignal "gn11" [Pins ["E3"]];
      Subsignal "gp11" [Pins ["F4"]];
      Subsignal "gn12" [Pins ["F3"]];
      Subsignal "gp12" [Pins ["G3"]];
      Subsignal "gn13" [Pins ["G5"]];
      Subsignal "gp13" [Pins ["H4"]];
      IOStandard "LVCMOS33"];
  mkResource "j2" 0 [
      Subsignal "gn14" [Pins ["U17"]];
      Subsignal "gp14" [Pins ["U18"]];
      Subsignal "gn15" [Pins ["P16"]];
      Subsignal "gp15" [Pins ["N17"]];
      Subsignal "gn16" [Pins ["M17"]];
      Subsignal "gp16" [Pins ["N16"]];
      Subsignal "gn17" [Pins ["L17"]];
      Subsignal "gp17" [Pins ["L16"]];
      Subsignal "gn18" [Pins ["H17"]];
      Subsignal "gp18" [Pins ["H18"]];
      Subsignal "gn19" [Pins ["G18"]];
      Subsignal "gp19" [Pins ["F17"]];
      Subsignal "gn20" [Pins ["E17"]];
      Subsignal "gp20" [Pins ["D18"]];
      Subsignal "gn21" [Pins ["D17"]];
      Subsignal "gp21" [Pins ["C18"]];
      Subsignal "gn22" [Pins ["C15"]];
      Subsignal "gp22" [Pins ["B15"]];
      Subsignal "gn23" [Pins ["C17"]];
      Subsignal "gp23" [Pins ["B17"]];
      Subsignal "gn24" [Pins ["D16"]];
      Subsignal "gp24" [Pins ["C16"]];
      Subsignal "gn25" [Pins ["E14"]];
      Subsignal "gp25" [Pins ["D14"]];
      Subsignal "gn26" [Pins ["C13"]];
      Subsignal "gp26" [Pins ["B13"]];
      Subsignal "gn27" [Pins ["E13"]];
      Subsignal "gp27" [Pins ["D13"]];
      IOStandard "LVCMOS33"];
  mkResource "lee_sdcard" 0 [
      Subsignal "clk" [Pins ["C16"]];
      Subsignal "cmd" [Pins ["B17"]; Misc "PULLMODE=UP"];
      Misc "SLEWRATE=FAST";
      IOStandard "LVCMOS33"];
  mkResource "wifi_gpio0" 0 [Pins ["L2"]; IOStandard "LVCMOS33"];
  mkResource "ext0p" 0 [Pins ["B11"]; IOStandard "LVCMOS33"];
  mkResource "ext1p" 0 [Pins ["A10"]; IOStandard "LVCMOS33"]
].

Definition _io_1_7 : list Resource := [
  mkResource "spisdcard" 0 [
      Subsignal "clk" [Pins ["J1"]];
      Subsignal "mosi" [Pins ["J3"]; Misc "PULLMODE=UP"];
      Subsignal "cs_n" [Pins ["H1"]; Misc "PULLMODE=UP"];
      Subsignal "miso" [Pins ["K2"]; Misc "PULLMODE=UP"];
      Misc "SLEWRATE=FAST";
      IOStandard "LVCMOS33"];
  mkResource "sdcard" 0 [
      Subsignal "clk" [Pins ["J1"]];
      Subsignal "cmd" [Pins ["J3"]; Misc "PULLMODE=UP"];
      Subsignal "data" [Pins ["K2 K1 H2 H1"]; Misc "PULLMODE=UP"];
      Misc "SLEWRATE=FAST";
      IOStandard "LVCMOS33"]
].

Definition _io_2_0 : list Resource := [
  mkResource "spisdcard" 0 [
      Subsignal "clk" [Pins ["H2"]];
      Subsignal "mosi" [Pins ["J1"]; Misc "PULLMODE=UP"];
      Subsignal "cs_n" [Pins ["K2"]; Misc "PULLMODE=UP"];
      Subsignal "miso" [Pins ["J3"]; Misc "PULLMODE=UP"];
      Misc "SLEWRATE=FAST";
      IOStandard "LVCMOS33"];
  mkResource "sdcard" 0 [
      Subsignal "clk" [Pins ["H2"]];
      Subsignal "cmd" [Pins ["J1"]; Misc "PULLMODE=UP"];
      Subsignal "data" [Pins ["J3 H1 K1 K2"]; Misc "PULLMODE=UP"];
      Subsignal "cd" [Pins ["N5"]];
      Subsignal "wp" [Pins ["P5"]];
      Misc "SLEWRATE=FAST";
      IOStandard "LVCMOS33"]
].

(** What [Platform.__init__] can raise: its own two assertions, the lookup
    in the dict of revisions, and whatever the base constructor raises. *)
Inductive exn (E : Type) :=
  | AssertionError
  | KeyError
  | BaseError (e : E).
Arguments AssertionError {E}.
Arguments KeyError {E}.
Arguments BaseError {E} e.

Inductive result (E P : Type) :=
  | Raised (e : exn E)
  | Returned (p : P).
Arguments Raised {E P} e.
Arguments Returned {E P} p.

Definition supported_devices : list string :=
  ["LFE5U-12F"; "LFE5U-25F"; "LFE5U-45F"; "LFE5U-85F"].

Definition supported_revisions : list string := ["1.7"; "2.0"].

(** The dict display [{"1.7": _io_1_7, "2.0": _io_2_0}]. *)
Definition io_of_revision : list (string * list Resource) :=
  [("1.7", _io_1_7); ("2.0", _io_2_0)].

(** Python's [x in l] on a list of strings. *)
Definition str_in (x : string) (l : list string) : bool :=
  existsb (String.eqb x) l.

Section Platform.
(** [LatticePlatform.__init__(self, device, io, toolchain=..., **kwargs)]
    belongs to the framework: it either raises or initialises the
    platform. *)
Context {E P K : Type}.
Variable LatticePlatform_init :
  string -> list Resource -> string -> K -> E + P.

Definition Platform_init
    (device revision toolchain : string) (kwargs : K) : result E P :=
  if negb (str_in device supported_devices) then Raised AssertionError
  else if negb (str_in revision supported_revisions) then Raised AssertionError
  else
    match getitem io_of_revision revision with
    | None => Raised KeyError
    | Some io_rev =>
        let _io := _io_common ++ io_rev in
        match LatticePlatform_init (device +:+ "-6BG381C") _io toolchain kwargs with
        | inl e => Raised (BaseError e)
        | inr p => Returned p
        end
    end.
End Platform.

(** The defaults of the keyword arguments of [Platform.__init__]. *)
Definition default_device : string := "LFE5U-45F".
Definition default_revision : string := "2.0".
Definition default_toolchain : string := "trellis".

(** A platform object as a base constructor may leave it: the part number,
    the IO table and the toolchain it was given. *)
Record LatticePlatformObj := mkLatticePlatform {
  lp_device : string;
  lp_io : list Resource;
  lp_toolchain : string
}.

(** The selectors the specification calls valid. *)
Definition valid_selector (device revision : string) : Prop :=
  device ∈ supported_devices /\ (revision = "1.7" \/ revision = "2.0").

(** ** Handshakes on the TX channel *)

(** The bytes the downstream consumer takes over a run: a transfer occurs in
    a cycle in which [uart.source.valid] and [uart.source.ready] are both
    asserted, and carries [uart.source.data] of that cycle. *)
Fixpoint tx_transfers (s : Regs) (ins : list Inputs) : list Z :=
  match ins with
  | [] => []
  | i :: ins' =>
      (if source_valid_out (comb s i) && source_ready i
       then [source_data (comb s i)] else [])
      ++ tx_transfers (sync s i) ins'
  end.

(** The bytes the host asks to send over a run: for every [tx_valid] write
    pulse, the content of [tx_data] when the pulse has taken effect. *)
Fixpoint tx_requests (s : Regs) (ins : list Inputs) : list Z :=
  match ins with
  | [] => []
  | i :: ins' =>
      (if tx_valid_re i then [tx_data_storage (sync s i)] else [])
      ++ tx_requests (sync s i) ins'
  end.

(** The byte waiting on the channel, if any. *)
Definition tx_pending (s : Regs) : list Z :=
  if source_valid s then [tx_data_storage s] else [].

(** A host that polls [tx_ready]: it writes [tx_data] and [tx_valid] only in
    cycles in which [tx_ready] reads true. *)
Fixpoint polled (s : Regs) (ins : list Inputs) : Prop :=
  match ins with
  | [] => True
  | i :: ins' =>
      (tx_ready_status (comb s i) = false ->
         tx_valid_re i = false /\ tx_data_re i = false)
      /\ polled (sync s i) ins'
  end.

(** Two input cycles that agree on everything the TX path reads. *)
Definition tx_inputs_eq (i1 i2 : Inputs) : Prop :=
  tx_valid_re i1 = tx_valid_re i2 /\
  tx_data_re i1 = tx_data_re i2 /\
  tx_data_r i1 = tx_data_r i2 /\
  source_ready i1 = source_ready i2.

(** ** The LED blinker of [NereidSoC.__init__] *)

(** [sys_counter = Signal(32)], [self.sync.sys += sys_counter.eq(sys_counter + 1)] *)
Definition sys_counter_next (sys_counter : Z) : Z := trunc 32 (sys_counter + 1).

Record rgb_led := mkRgbLed {
  rgb_r : bool;
  rgb_g : bool;
  rgb_b : bool
}.

(** [rgb.r.eq(1)], [rgb.g.eq(sys_counter[26])], [rgb.b.eq(1)] *)
Definition rgb_comb (sys_counter : Z) : rgb_led :=
  {| rgb_r := true;
     rgb_g := Z.testbit sys_counter 26;
     rgb_b := true |}.

(** The counter [n] clock edges later. *)
Definition sys_counter_after (n : N) (sys_counter : Z) : Z :=
  N.iter n sys_counter_next sys_counter.

(** ** The build script ([main] in nereid.py) *)

(** [compile_gateware = not "no-compile" in sys.argv[1:]] *)
Definition compile_gateware (argv : list string) : bool :=
  negb (str_in "no-compile" (drop 1 argv)).

(** ** Resource identifiers *)

(** The [(name, number)] pair under which a resource is requested. *)
Definition resource_id (r : Resource) : string * nat :=
  (res_name r, res_number r).

(** * Part II: properties *)

(** ** Signals *)

Lemma trunc_byte (v : Z) : is_byte v -> trunc 8 v = v.
Proof.
  unfold is_byte, trunc. intros Hv.
  rewrite Z.land_ones by lia.
  apply Z.mod_small. change (2 ^ 8)%Z with 256%Z. lia.
Qed.

Lemma trunc_is_byte (v : Z) : is_byte (trunc 8 v).
Proof.
  unfold is_byte, trunc. rewrite Z.land_ones by lia.
  change (2 ^ 8)%Z with 256%Z.
  pose proof (Z.mod_pos_bound v 256). lia.
Qed.

(** ** The PCIe UART bridge *)



(** The outputs of a cycle are the combinational function of the registers
    and the inputs of that cycle. *)
Lemma trace_states s ins :
  trace s ins = zip_with comb (states s ins) ins.
Proof. revert s. induction ins as [|i ins IH]; intros s; simpl; [|rewrite IH]; auto. Qed.




(** The staged byte always fits 8 bits. *)
Lemma storage_is_byte s ins :
  is_byte (tx_data_storage s) -> is_byte (tx_data_storage (run s ins)).
Proof.
  revert s. induction ins as [|i ins IH]; intros s Hs; simpl; auto.
  apply IH. simpl. unfold CSRStorage_next.
  destruct (tx_data_re i); auto using trunc_is_byte.
Qed.

(** *** The TX state machine *)

(** C1 (as the specification states it, refuted): the bridge is reset, the
    host pulses [tx_valid] and the bridge is Transmitting; in the next cycle
    the consumer is ready and the host pulses [tx_valid] again.  The
    specification's machine goes back to Idle on that [ready]; the bridge
    stays Transmitting. *)
Lemma tx_state_machine_counterexample :
  let pulse := mkInputs false true false 0 false 0 false in
  let pulse_and_ready := mkInputs false true false 0 false 0 true in
  let s := run reset [pulse] in
  tx_state_of s = Transmitting /\
  source_ready pulse_and_ready = true /\
  spec_tx_next (tx_state_of s) (tx_valid_re pulse_and_ready)
               (source_ready pulse_and_ready) = Idle /\
  tx_state_of (sync s pulse_and_ready) = Transmitting /\
  tx_state_of (sync s pulse_and_ready)
    <> spec_tx_next (tx_state_of s) (tx_valid_re pulse_and_ready)
                    (source_ready pulse_and_ready).
Proof. simpl. repeat split; try reflexivity. discriminate. Qed.

(** C1 (amended): the TX path is a two-state machine over
    [uart.source.valid].  From Idle it becomes Transmitting exactly on a
    [tx_valid] write pulse; from Transmitting it becomes Idle exactly on a
    downstream [ready] in a cycle without a [tx_valid] write pulse; a
    [tx_valid] pulse while Transmitting leaves it Transmitting, so there is
    no second Idle-to-Transmitting transition. *)
Theorem tx_state_machine (s : Regs) (i : Inputs) :
  (tx_state_of s = Idle ->
     (tx_state_of (sync s i) = Transmitting <-> tx_valid_re i = true)) /\
  (tx_state_of s = Transmitting ->
     (tx_state_of (sync s i) = Idle <->
        source_ready i = true /\ tx_valid_re i = false)) /\
  (tx_state_of s = Transmitting -> tx_valid_re i = true ->
     tx_state_of (sync s i) = Transmitting).
Proof.
  destruct s as [v d], i as [rr tv tre tr sv sd rdy].
  unfold tx_state_of, sync, source_valid_next; simpl.
  destruct v, tv, rdy; simpl; repeat split; intros; try congruence;
    try tauto; try (destruct_and?; congruence).
Qed.

Lemma tx_state_machine_witness :
  let s := mkRegs true 65 in
  let i := mkInputs false false false 0 false 0 true in
  tx_state_of s = Transmitting /\ tx_state_of (sync s i) = Idle.
Proof.
  intros s i.
  split; [reflexivity|].
  apply (proj1 (proj2 (tx_state_machine s i)) eq_refl).
  split; reflexivity.
Defined.

(** C2: in every cycle of every run, whatever the state the run starts
    from, the [tx_ready] status bit is the negation of
    [uart.source.valid]. *)
Theorem tx_ready_is_not_valid (s : Regs) (ins : list Inputs) :
  tx_ready_status <$> trace s ins = (negb ∘ source_valid_out) <$> trace s ins /\
  tx_ready_status <$> trace s ins = (negb ∘ source_valid) <$> states s ins.
Proof.
  revert s. induction ins as [|i ins IH]; intros s; simpl; [auto|].
  destruct (IH (sync s i)) as [H1 H2].
  split; f_equal; assumption.
Qed.

(** C9: a [tx_valid] write pulse wins over downstream [ready]: when both
    occur in a cycle in which the bridge is Transmitting, it is still
    Transmitting in the next cycle and [uart.source.valid] stays 1. *)
Theorem tx_valid_priority (s : Regs) (i o : Inputs) :
  source_valid s = true ->
  tx_valid_re i = true ->
  source_ready i = true ->
  tx_state_of (sync s i) = Transmitting /\
  source_valid_out (comb (sync s i) o) = true.
Proof.
  intros _ Hp _. unfold tx_state_of, sync, source_valid_next; simpl.
  now rewrite Hp.
Qed.

Lemma tx_valid_priority_witness :
  let s := mkRegs true 65 in
  let i := mkInputs false true false 0 false 0 true in
  tx_state_of (sync s i) = Transmitting /\
  source_valid_out (comb (sync s i) i) = true.
Proof.
  intros s i. apply (tx_valid_priority s i i); reflexivity.
Defined.

(** *** Transmission of a byte *)



(** C10 (as stated, refuted): a byte 65 is staged and [tx_valid] is pulsed;
    while that transfer is pending the host writes 66 to [tx_data] in the
    cycle in which the consumer is ready.  The transfer completes in that
    cycle and carries 65; afterwards nothing is pending, so the write has
    not changed the data presented on the in-flight transfer. *)
Lemma tx_data_not_latched_counterexample :
  let write65 := mkInputs false false true 65 false 0 false in
  let pulse := mkInputs false true false 0 false 0 false in
  let write66_ready := mkInputs false false true 66 false 0 true in
  let ready := mkInputs false false false 0 false 0 true in
  let s := run reset [write65; pulse] in
  source_valid s = true /\
  tx_data_re write66_ready = true /\
  tx_data_r write66_ready = 66%Z /\
  source_data (comb s write66_ready) = 65%Z /\
  tx_transfers s [write66_ready; ready; ready] = [65%Z] /\
  source_valid_out (comb (sync s write66_ready) ready) = false.
Proof. repeat split. Qed.

(** C10 (amended): the downstream data line follows the [tx_data] storage
    in every cycle, it is not captured at the [tx_valid] pulse: in a run
    from reset the data presented in a cycle is the content of the storage
    in that cycle.  A write of [b'] to [tx_data] while a transfer is pending,
    in a cycle in which the consumer is not ready, makes the pending
    transfer present [b'] from the next cycle on, whatever byte was staged
    when [tx_valid] was pulsed.  A write in the cycle in which the consumer
    is ready comes too late: the transfer completes in that cycle with the
    byte that was in the storage, and without a [tx_valid] pulse nothing is
    pending afterwards. *)
Theorem tx_data_not_latched :
  (forall ins : list Inputs,
     source_data <$> trace reset ins = tx_data_storage <$> states reset ins) /\
  (forall (s : Regs) (b' : Z) (iw i : Inputs),
     source_valid s = true ->
     is_byte b' ->
     tx_data_re iw = true -> tx_data_r iw = b' ->
     source_ready iw = false ->
     source_valid_out (comb (sync s iw) i) = true /\
     source_data (comb (sync s iw) i) = b') /\
  (forall (s : Regs) (b' : Z) (iw i : Inputs),
     source_valid s = true ->
     is_byte (tx_data_storage s) ->
     tx_data_re iw = true -> tx_data_r iw = b' ->
     source_ready iw = true ->
     tx_transfers s [iw] = [tx_data_storage s] /\
     (tx_valid_re iw = false ->
        source_valid_out (comb (sync s iw) i) = false)).
Proof.
  split; [|split].
  - intros ins.
    assert (H : forall s, is_byte (tx_data_storage s) ->
              source_data <$> trace s ins = tx_data_storage <$> states s ins).
    { induction ins as [|i ins IH]; intros s Hs; simpl; [reflexivity|].
      rewrite trunc_byte by assumption. f_equal.
      apply IH. apply (storage_is_byte s [i]); assumption. }
    apply H. unfold is_byte; simpl; lia.
  - intros s b' iw i Hv Hb Hre Hr Hrdy. simpl.
    unfold source_valid_next, CSRStorage_next.
    rewrite Hrdy, Hre, Hr, Hv. split; [now destruct (tx_valid_re iw)|].
    rewrite (trunc_byte (trunc 8 b')) by apply trunc_is_byte.
    now apply trunc_byte.
  - intros s b' iw i Hv Hb Hre Hr Hrdy. split.
    + cbn [tx_transfers comb source_valid_out source_data].
      rewrite Hv, Hrdy, trunc_byte by assumption. reflexivity.
    + intros Hp. simpl. unfold source_valid_next. now rewrite Hp, Hrdy.
Qed.

Lemma tx_data_not_latched_witness :
  let s := run reset [mkInputs false false true 65 false 0 false;
                      mkInputs false true false 0 false 0 false] in
  let iw := mkInputs false false true 66 false 0 false in
  let iw_ready := mkInputs false false true 66 false 0 true in
  tx_data_storage s = 65%Z /\
  (source_valid_out (comb (sync s iw) iw) = true /\
   source_data (comb (sync s iw) iw) = 66%Z) /\
  tx_transfers s [iw_ready] = [65%Z].
Proof.
  intros s iw iw_ready. split; [reflexivity|]. split.
  - apply (proj1 (proj2 tx_data_not_latched) s 66%Z iw iw); try reflexivity.
    unfold is_byte; lia.
  - assert (Hb : is_byte (tx_data_storage s))
      by (unfold is_byte; change (tx_data_storage s) with 65%Z; lia).
    exact (proj1 (proj2 (proj2 tx_data_not_latched) s 66%Z iw_ready iw_ready
                    eq_refl Hb eq_refl eq_refl eq_refl)).
Defined.

(** *** The RX path *)

(** C4: the upstream [ready] is the write strobe of [rx_ready]: over any
    run the waveform of [uart.sink.ready] is the waveform of the writes to
    [rx_ready], so [ready] is asserted in the cycle of a write and in no
    cycle without one; a single write among cycles without writes gives a
    single one-cycle pulse, whether or not [rx_valid] is true. *)
Theorem rx_ack_is_write_strobe (s : Regs) (ins : list Inputs) :
  sink_ready <$> trace s ins = rx_ready_re <$> ins /\
  (forall pre iw post,
     ins = pre ++ iw :: post ->
     rx_ready_re iw = true ->
     sink_valid iw = true ->
     Forall (fun i => rx_ready_re i = false) (pre ++ post) ->
     sink_ready <$> trace s ins
       = replicate (length pre) false ++ true :: replicate (length post) false).
Proof.
  assert (Hwave : forall s ins, sink_ready <$> trace s ins = rx_ready_re <$> ins).
  { clear. intros s ins. revert s.
    induction ins as [|i ins IH]; intros s; simpl; [|rewrite IH]; auto. }
  split; [apply Hwave|].
  intros pre iw post -> Hw _ Hq. rewrite Hwave.
  apply Forall_app in Hq as [Hpre Hpost].
  assert (Hrep : forall l, Forall (fun i => rx_ready_re i = false) l ->
                   rx_ready_re <$> l = replicate (length l) false).
  { clear. induction 1 as [|i l Hi _ IH]; csimpl; [|rewrite Hi, IH]; auto. }
  rewrite fmap_app, fmap_cons, Hw.
  rewrite (Hrep pre Hpre), (Hrep post Hpost). reflexivity.
Qed.

Lemma rx_ack_is_write_strobe_witness :
  let idle := mkInputs false false false 0 true 65 false in
  let ack := mkInputs true false false 0 true 65 false in
  sink_ready <$> trace reset [idle; idle; ack; idle]
    = [false; false; true; false].
Proof.
  intros idle ack.
  apply (proj2 (rx_ack_is_write_strobe reset [idle; idle; ack; idle])
               [idle; idle] ack [idle]); try reflexivity.
  repeat constructor.
Defined.

(** C8: [rx_valid] and [rx_data] mirror the upstream channel in the same
    cycle: over any run the waveform of the [rx_valid] status is that of
    [uart.sink.valid] and the waveform of the [rx_data] status is that of
    [uart.sink.data] (an 8-bit signal); neither depends on the registers of
    the bridge, so nothing is buffered. *)
Theorem rx_mirrors_sink (s : Regs) (ins : list Inputs) :
  Forall (fun i => is_byte (sink_data i)) ins ->
  rx_valid_status <$> trace s ins = sink_valid <$> ins /\
  rx_data_status <$> trace s ins = sink_data <$> ins /\
  (forall (s' : Regs) (i : Inputs),
     rx_valid_status (comb s i) = rx_valid_status (comb s' i) /\
     rx_data_status (comb s i) = rx_data_status (comb s' i)).
Proof.
  intros H. split; [|split].
  - clear H. revert s.
    induction ins as [|i ins IH]; intros s; simpl; [|rewrite IH]; auto.
  - revert s. induction H as [|i ins Hi _ IH]; intros s; simpl; auto.
    rewrite IH, trunc_byte by assumption. reflexivity.
  - intros s' i. split; reflexivity.
Qed.

Lemma rx_mirrors_sink_witness :
  let i1 := mkInputs false false false 0 true 65 false in
  let i2 := mkInputs true false false 0 false 0 true in
  rx_valid_status <$> trace reset [i1; i2] = [true; false] /\
  rx_data_status <$> trace reset [i1; i2] = [65%Z; 0%Z].
Proof.
  intros i1 i2.
  assert (H : Forall (fun i => is_byte (sink_data i)) [i1; i2])
    by (repeat constructor; unfold is_byte; simpl; lia).
  pose proof (rx_mirrors_sink reset [i1; i2] H) as (Hv & Hd & _).
  split; assumption.
Defined.

(** ** The MSI index allocation *)

(** *** The order on names *)

Lemma string_compare_trans (s1 s2 s3 : string) :
  String.compare s1 s2 <> Gt -> String.compare s2 s3 <> Gt ->
  String.compare s1 s3 <> Gt.
Proof.
  revert s2 s3.
  induction s1 as [|a s1 IH]; intros [|b s2] [|c s3]; simpl; try congruence.
  unfold Ascii.compare.
  destruct (N.compare_spec (Ascii.N_of_ascii a) (Ascii.N_of_ascii b));
    destruct (N.compare_spec (Ascii.N_of_ascii b) (Ascii.N_of_ascii c));
    destruct (N.compare_spec (Ascii.N_of_ascii a) (Ascii.N_of_ascii c));
    try congruence; try lia.
  apply IH.
Qed.

Lemma string_leb_trans (s1 s2 s3 : string) :
  String.leb s1 s2 -> String.leb s2 s3 -> String.leb s1 s3.
Proof.
  unfold String.leb.
  pose proof (string_compare_trans s1 s2 s3) as H.
  destruct (String.compare s1 s2), (String.compare s2 s3),
    (String.compare s1 s3); simpl; try tauto; intros; exfalso; apply H; congruence.
Qed.

Lemma string_leb_total (s1 s2 : string) : String.leb s1 s2 \/ String.leb s2 s1.
Proof.
  destruct (String.leb_total s1 s2) as [H|H]; rewrite H; simpl; auto.
Qed.

Lemma string_leb_antisym (s1 s2 : string) :
  String.leb s1 s2 -> String.leb s2 s1 -> s1 = s2.
Proof.
  intros H1 H2. apply String.leb_antisym; apply Is_true_true; assumption.
Qed.

Lemma string_leb_ltb (s1 s2 : string) :
  String.leb s1 s2 -> s1 <> s2 -> String.ltb s1 s2.
Proof.
  unfold String.leb, String.ltb. intros H Hne.
  destruct (String.compare s1 s2) eqn:E; simpl in *; auto.
  apply String.compare_eq_iff in E. contradiction.
Qed.

Global Instance item_le_total {V} : Total (@item_le V).
Proof. intros x y. apply string_leb_total. Qed.

Global Instance item_le_trans {V} : Transitive (@item_le V).
Proof. intros x y z. apply string_leb_trans. Qed.

(** *** Sorting and enumerating *)

Lemma sorted_Sorted {V} (items : list (string * V)) :
  Sorted item_le (sorted items).
Proof. apply Sorted_merge_sort; apply _. Qed.

Lemma sorted_Permutation {V} (items : list (string * V)) :
  sorted items ≡ₚ items.
Proof. apply merge_sort_Permutation. Qed.

Lemma length_sorted {V} (items : list (string * V)) :
  length (sorted items) = length items.
Proof. now rewrite sorted_Permutation. Qed.

(** In a list with distinct first components, an element is determined by
    its first component. *)
Lemma NoDup_fmap_elem_inj {A B} (f : A -> B) (l : list A) (x y : A) :
  NoDup (f <$> l) -> x ∈ l -> y ∈ l -> f x = f y -> x = y.
Proof.
  induction l as [|a l IH]; csimpl; intros Hnd Hx Hy Hf.
  { inversion Hx. }
  apply NoDup_cons in Hnd as [Ha Hnd].
  apply elem_of_cons in Hx as [->|Hx]; apply elem_of_cons in Hy as [->|Hy]; auto.
  - exfalso. apply Ha. rewrite Hf. now apply list_elem_of_fmap_2.
  - exfalso. apply Ha. rewrite <- Hf. now apply list_elem_of_fmap_2.
Qed.

(** The result of [sorted] does not depend on the order in which a dict
    yields its items. *)
Lemma sorted_order_independent {V} (items1 items2 : list (string * V)) :
  NoDup items1.*1 -> items1 ≡ₚ items2 -> sorted items1 = sorted items2.
Proof.
  intros Hnd Hp.
  apply (Sorted_unique_strong item_le); try apply sorted_Sorted.
  - intros x1 x2 Hx1 Hx2 H12 H21.
    apply (NoDup_fmap_elem_inj fst items1); auto.
    + now rewrite <- (sorted_Permutation items1).
    + now rewrite Hp, <- (sorted_Permutation items2).
    + now apply string_leb_antisym.
  - now rewrite !sorted_Permutation.
Qed.

Lemma msi_indices_fst {V} (items : list (string * V)) :
  (msi_indices items).*1 = (sorted items).*1.
Proof.
  unfold msi_indices, enumerate. generalize 0. generalize (sorted items).
  induction l as [|[k v] l IH]; intros n; csimpl; [|rewrite IH]; auto.
Qed.

Lemma msi_indices_snd {V} (items : list (string * V)) :
  (msi_indices items).*2 = seq 0 (length items).
Proof.
  rewrite <- length_sorted.
  unfold msi_indices, enumerate. generalize 0. generalize (sorted items).
  induction l as [|[k v] l IH]; intros n; csimpl; [|rewrite IH]; auto.
Qed.

Lemma StronglySorted_leb_ltb (l : list string) :
  NoDup l -> StronglySorted (fun a b => String.leb a b) l ->
  StronglySorted (fun a b => String.ltb a b) l.
Proof.
  intros Hnd Hs. induction Hs as [|x l Hs IH Hx]; constructor.
  - apply IH. now apply NoDup_cons in Hnd as [_ ?].
  - apply NoDup_cons in Hnd as [Hnx _].
    rewrite Forall_forall in Hx |- *. intros y Hy.
    apply string_leb_ltb; [now apply Hx|]. intros ->. contradiction.
Qed.

Lemma msi_indices_sorted {V} (items : list (string * V)) :
  NoDup items.*1 ->
  StronglySorted (fun a b => String.ltb a b) (msi_indices items).*1.
Proof.
  intros Hnd. rewrite msi_indices_fst.
  apply StronglySorted_leb_ltb.
  - now rewrite sorted_Permutation.
  - apply (StronglySorted_fmap fst item_le); [auto|].
    apply Sorted_StronglySorted; [apply _|apply sorted_Sorted].
Qed.

(** *** Lookup of an index *)

Lemma getitem_Some {V} (d : list (string * V)) (k : string) (v : V) :
  getitem d k = Some v -> (k, v) ∈ d.
Proof.
  induction d as [|[k' v'] d IH]; simpl; [discriminate|].
  destruct (String.eqb_spec k' k) as [->|Hne].
  - intros [= ->]. left.
  - intros H. right. auto.
Qed.

Lemma getitem_elem {V} (d : list (string * V)) (k : string) (v : V) :
  NoDup d.*1 -> (k, v) ∈ d -> getitem d k = Some v.
Proof.
  induction d as [|[k' v'] d IH]; csimpl; intros Hnd Hin.
  { inversion Hin. }
  apply NoDup_cons in Hnd as [Hk' Hnd].
  apply elem_of_cons in Hin as [[= <- <-]|Hin].
  - now rewrite String.eqb_refl.
  - destruct (String.eqb_spec k' k) as [->|Hne]; [|auto].
    exfalso. apply Hk'. apply list_elem_of_fmap. exists (k, v). auto.
Qed.

Lemma msi_indices_NoDup_fst {V} (items : list (string * V)) :
  NoDup items.*1 -> NoDup (msi_indices items).*1.
Proof. intros H. now rewrite msi_indices_fst, sorted_Permutation. Qed.

(** *** The constants published by the loop *)

Lemma msi_loop_constants (items : list (string * irq_signal)) (soc : SoC) :
  constants (msi_loop items soc)
  = constants soc
    ++ ((fun '(k, i) => (k +:+ "_INTERRUPT", ConstInt (Z.of_nat i)))
          <$> msi_indices items).
Proof.
  unfold msi_loop, msi_indices, enumerate. generalize 0. revert soc.
  generalize (sorted items).
  induction l as [|[k v] l IH]; intros soc n; csimpl.
  - now rewrite app_nil_r.
  - rewrite IH. simpl. now rewrite <- app_assoc.
Qed.

Lemma msi_loop_comb (items : list (string * irq_signal)) (soc : SoC) :
  msi_comb (msi_loop items soc)
  = msi_comb soc ++ ((fun '(i, (_, v)) => (i, v)) <$> enumerate (sorted items)).
Proof.
  unfold msi_loop, enumerate. generalize 0. revert soc.
  generalize (sorted items).
  induction l as [|[k v] l IH]; intros soc n; csimpl.
  - now rewrite app_nil_r.
  - rewrite IH. simpl. now rewrite <- app_assoc.
Qed.

Lemma msi_loop_other (items : list (string * irq_signal)) (soc : SoC) :
  csrs (msi_loop items soc) = csrs soc /\
  interrupts (msi_loop items soc) = interrupts soc /\
  integrated_main_ram_size (msi_loop items soc) = integrated_main_ram_size soc.
Proof.
  unfold msi_loop. generalize (enumerate (sorted items)). intros l. revert soc.
  induction l as [|it l IH]; intros soc; [auto|].
  cbn [fold_left].
  destruct (IH (msi_loop_body soc it)) as (-> & -> & ->).
  destruct it as [i [k v]]. auto.
Qed.

(** C5: for any dict of interrupt sources (distinct names), the allocation
    lists the names in strictly ascending lexicographic order with the
    indices 0..N-1 in that order; the index map is defined exactly on the
    source names, takes its values below N, reaches every index below N and
    is injective (a bijection from the names onto 0..N-1); the loop
    publishes each pair as the constant [name_INTERRUPT].  For the sources
    of the Nereid SoC, DMA_READER gets 0 and DMA_WRITER gets 1. *)
Theorem msi_index_allocation :
  (forall (V : Type) (items : list (string * V)),
     NoDup items.*1 ->
     (msi_indices items).*1 ≡ₚ items.*1 /\
     StronglySorted (fun a b => String.ltb a b) (msi_indices items).*1 /\
     (msi_indices items).*2 = seq 0 (length items) /\
     (forall k, k ∈ items.*1 <-> exists i, msi_index items k = Some i) /\
     (forall k i, msi_index items k = Some i -> i < length items) /\
     (forall i, i < length items -> exists k, msi_index items k = Some i) /\
     (forall k1 k2 i,
        msi_index items k1 = Some i -> msi_index items k2 = Some i -> k1 = k2)) /\
  (forall (items : list (string * irq_signal)) (soc : SoC),
     constants (msi_loop items soc)
     = constants soc
       ++ ((fun '(k, i) => (k +:+ "_INTERRUPT", ConstInt (Z.of_nat i)))
             <$> msi_indices items)) /\
  msi_indices msis = [("DMA_READER", 0); ("DMA_WRITER", 1)] /\
  msi_index msis "DMA_READER" = Some 0 /\
  msi_index msis "DMA_WRITER" = Some 1 /\
  (forall soc : SoC,
     constants (msi_loop msis soc)
     = constants soc ++ [("DMA_READER_INTERRUPT", ConstInt 0);
                         ("DMA_WRITER_INTERRUPT", ConstInt 1)]).
Proof.
  split; [|split; [apply msi_loop_constants|]].
  - intros V items Hnd.
    pose proof (msi_indices_NoDup_fst items Hnd) as Hnd1.
    assert (Hnd2 : NoDup (msi_indices items).*2)
      by (rewrite msi_indices_snd; apply NoDup_seq).
    assert (Hp : (msi_indices items).*1 ≡ₚ items.*1)
      by (now rewrite msi_indices_fst, sorted_Permutation).
    repeat split.
    + exact Hp.
    + now apply msi_indices_sorted.
    + apply msi_indices_snd.
    + intros Hk. rewrite <- Hp in Hk.
      apply list_elem_of_fmap in Hk as ([k' i] & -> & Hin).
      exists i. now apply getitem_elem.
    + intros [i Hi]. rewrite <- Hp. apply getitem_Some in Hi.
      apply list_elem_of_fmap. exists (k, i). auto.
    + intros k i Hi. apply getitem_Some in Hi.
      assert (Hin : i ∈ (msi_indices items).*2)
        by (apply list_elem_of_fmap; exists (k, i); auto).
      rewrite msi_indices_snd in Hin. apply elem_of_seq in Hin. lia.
    + intros i Hi.
      assert (Hin : i ∈ (msi_indices items).*2)
        by (rewrite msi_indices_snd; apply elem_of_seq; lia).
      apply list_elem_of_fmap in Hin as ([k i'] & -> & Hin).
      exists k. now apply getitem_elem.
    + intros k1 k2 i H1 H2.
      apply getitem_Some in H1, H2.
      pose proof (NoDup_fmap_elem_inj snd _ _ _ Hnd2 H1 H2 eq_refl) as [= ->].
      reflexivity.
  - repeat split; try (vm_compute; reflexivity).
    intros soc. rewrite msi_loop_constants. reflexivity.
Qed.

Lemma msis_NoDup : NoDup msis.*1.
Proof.
  repeat (apply NoDup_cons; split;
          [rewrite ?elem_of_cons, elem_of_nil; intuition discriminate|]).
  apply NoDup_nil; exact I.
Defined.

Lemma msi_index_allocation_witness :
  (msi_indices msis).*2 = seq 0 (length msis) /\
  (forall k, k ∈ msis.*1 <-> exists i, msi_index msis k = Some i).
Proof.
  destruct (proj1 msi_index_allocation irq_signal msis msis_NoDup)
    as (_ & _ & H3 & H4 & _).
  split; assumption.
Defined.

(** ** The SoC composition *)

Section CompositionProperties.
Context {Regions : Type}.
Variable SoCSDRAM_init : bool -> SoC.
Variable register_sdram : SoC -> SoC.
Variable csr_regions : SoC -> Regions.
Variable get_csr_header :
  Regions -> list (string * constant_value) -> bool -> string.

(** The composition depends on the items of [self.msis] only through
    their sorted order. *)
Lemma NereidSoC_init_items_sorted items1 items2 with_pcie_uart :
  sorted items1 = sorted items2 ->
  NereidSoC_init_items SoCSDRAM_init register_sdram items1 with_pcie_uart
  = NereidSoC_init_items SoCSDRAM_init register_sdram items2 with_pcie_uart.
Proof.
  intros H. unfold NereidSoC_init_items, msi_loop. now rewrite H.
Qed.

(** C7: two runs of the composition on the same inputs (the same option
    [with_pcie_uart], the same dict of interrupt sources, the same
    framework) give the same SoC, even when the dict yields its items in a
    different order in the two runs: the same CSR regions, the same
    constants with the same values in the same order, the same interrupt
    wiring, and the same generated header. *)
Theorem composition_deterministic
    (items1 items2 : list (string * irq_signal))
    (with_pcie_uart : bool) (filename : string) :
  NoDup items1.*1 ->
  items1 ≡ₚ items2 ->
  let soc1 :=
    NereidSoC_init_items SoCSDRAM_init register_sdram items1 with_pcie_uart in
  let soc2 :=
    NereidSoC_init_items SoCSDRAM_init register_sdram items2 with_pcie_uart in
  soc1 = soc2 /\
  csrs soc1 = csrs soc2 /\
  constants soc1 = constants soc2 /\
  msi_comb soc1 = msi_comb soc2 /\
  generate_software_header csr_regions get_csr_header soc1 filename
  = generate_software_header csr_regions get_csr_header soc2 filename.
Proof.
  intros Hnd Hp soc1 soc2.
  assert (H : soc1 = soc2).
  { apply NereidSoC_init_items_sorted.
    now apply sorted_order_independent. }
  rewrite H. auto.
Qed.
End CompositionProperties.

Lemma composition_deterministic_witness :
  let base := fun with_uart : bool =>
    mkSoC 65536 ["ctrl"] [] [] [("CONFIG_CLOCK_FREQUENCY", ConstInt 100000000)] in
  NereidSoC_init_items base id msis true
  = NereidSoC_init_items base id (reverse msis) true /\
  constants (NereidSoC_init_items base id msis true)
  = [("CONFIG_CLOCK_FREQUENCY", ConstInt 100000000);
     ("DMA_READER_INTERRUPT", ConstInt 0);
     ("DMA_WRITER_INTERRUPT", ConstInt 1)].
Proof.
  intros base. split; [|reflexivity].
  apply (composition_deterministic base id (fun _ => tt) (fun _ _ _ => "")
           msis (reverse msis) true "csr.h" msis_NoDup).
  symmetry. apply reverse_Permutation.
Defined.

(** ** The ULX3S platform constructor *)

Lemma str_in_spec (x : string) (l : list string) :
  str_in x l = true <-> x ∈ l.
Proof.
  unfold str_in. induction l as [|y l IH]; simpl.
  - split; [discriminate|inversion 1].
  - rewrite orb_true_iff, IH, elem_of_cons.
    destruct (String.eqb_spec x y); intuition congruence.
Qed.

Lemma str_in_revisions (revision : string) :
  str_in revision supported_revisions = true
  <-> revision = "1.7" \/ revision = "2.0".
Proof.
  rewrite str_in_spec. unfold supported_revisions.
  rewrite !elem_of_cons, elem_of_nil. tauto.
Qed.

Section PlatformProperties.
Context {E P K : Type}.
Variable LatticePlatform_init :
  string -> list Resource -> string -> K -> E + P.

(** A valid selector passes both assertions and the lookup of the
    revision, and the base constructor is called with the part number and
    the IO table of the revision. *)
Lemma Platform_init_valid device revision toolchain kwargs :
  valid_selector device revision ->
  Platform_init LatticePlatform_init device revision toolchain kwargs
  = match LatticePlatform_init
            (device +:+ "-6BG381C")
            (_io_common ++ (if String.eqb revision "1.7" then _io_1_7 else _io_2_0))
            toolchain kwargs with
    | inl e => Raised (BaseError e)
    | inr p => Returned p
    end.
Proof.
  intros [Hd Hr]. unfold Platform_init.
  apply str_in_spec in Hd. rewrite Hd.
  pose proof (proj2 (str_in_revisions revision) Hr) as Hr'. rewrite Hr'.
  destruct Hr as [-> | ->]; reflexivity.
Qed.

(** C6 (amended): with a device outside the supported list, or a revision
    other than "1.7" and "2.0", the constructor raises [AssertionError]
    whatever the base constructor would do (it is not reached, nothing is
    built).  With a valid device and revision both assertions and the
    lookup of the revision pass; the base constructor is called with the
    part number [device-6BG381C], the IO table of the revision, the
    toolchain and the keyword arguments; the constructor returns the
    platform the base constructor initialises and raises what the base
    constructor raises, so it succeeds exactly when the base constructor
    does. *)
Theorem Platform_init_selector_check
    (device revision toolchain : string) (kwargs : K) :
  (~ valid_selector device revision ->
     Platform_init LatticePlatform_init device revision toolchain kwargs
     = Raised AssertionError) /\
  (valid_selector device revision ->
     Platform_init LatticePlatform_init device revision toolchain kwargs
     = match LatticePlatform_init
               (device +:+ "-6BG381C")
               (_io_common ++ (if String.eqb revision "1.7" then _io_1_7 else _io_2_0))
               toolchain kwargs with
       | inl e => Raised (BaseError e)
       | inr p => Returned p
       end) /\
  (valid_selector device revision ->
     forall p : P,
       Platform_init LatticePlatform_init device revision toolchain kwargs
       = Returned p
       <-> LatticePlatform_init
             (device +:+ "-6BG381C")
             (_io_common ++ (if String.eqb revision "1.7" then _io_1_7 else _io_2_0))
             toolchain kwargs = inr p) /\
  (valid_selector device revision ->
     Platform_init LatticePlatform_init device revision toolchain kwargs
       <> Raised AssertionError /\
     Platform_init LatticePlatform_init device revision toolchain kwargs
       <> Raised KeyError).
Proof.
  split; [|split; [|split]].
  - intros Hinv. unfold Platform_init.
    destruct (str_in device supported_devices) eqn:Hd; [|reflexivity].
    destruct (str_in revision supported_revisions) eqn:Hr; [|reflexivity].
    exfalso. apply Hinv. split.
    + now apply str_in_spec.
    + now apply str_in_revisions.
  - intros Hv. now apply Platform_init_valid.
  - intros Hv p. rewrite Platform_init_valid by assumption.
    destruct (LatticePlatform_init _ _ _ _); split; congruence.
  - intros Hv. rewrite Platform_init_valid by assumption.
    destruct (LatticePlatform_init _ _ _ _); split; discriminate.
Qed.
End PlatformProperties.

(** C6 (as stated, refuted): the default device and revision are valid, but
    with a toolchain the base constructor does not know the constructor
    does not succeed: the error of the base constructor comes out. *)
Lemma Platform_init_selector_check_counterexample :
  let base := fun (device : string) (io : list Resource) (toolchain : string)
                  (_ : unit) =>
    if str_in toolchain ["diamond"; "trellis"]
    then inr (mkLatticePlatform device io toolchain)
    else inl "Unknown toolchain"%string in
  valid_selector default_device default_revision /\
  Platform_init base default_device default_revision "bogus" tt
  = Raised (BaseError "Unknown toolchain") /\
  ~ exists p, Platform_init base default_device default_revision "bogus" tt
              = Returned p.
Proof.
  intros base. split; [|split].
  - split; [|right; reflexivity].
    unfold supported_devices, default_device. rewrite !elem_of_cons. auto.
  - reflexivity.
  - intros [p Hp]. discriminate Hp.
Qed.

Lemma Platform_init_selector_check_witness :
  let base := fun (device : string) (io : list Resource) (toolchain : string)
                  (_ : unit) =>
    if str_in toolchain ["diamond"; "trellis"]
    then inr (mkLatticePlatform device io toolchain)
    else inl "Unknown toolchain"%string in
  Platform_init base default_device default_revision default_toolchain tt
  = Returned (mkLatticePlatform "LFE5U-45F-6BG381C" (_io_common ++ _io_2_0) "trellis") /\
  Platform_init base "LFE5U-45F" "3.0" default_toolchain tt
  = Raised AssertionError.
Proof.
  intros base. split.
  - assert (Hv : valid_selector default_device default_revision).
    { split; [|right; reflexivity].
      apply (proj1 (str_in_spec default_device supported_devices)).
      reflexivity. }
    apply (proj2 (proj1 (proj2 (proj2 (Platform_init_selector_check
                    base default_device default_revision default_toolchain tt)))
                  Hv _)).
    reflexivity.
  - apply (proj1 (Platform_init_selector_check
                    base "LFE5U-45F" "3.0" default_toolchain tt)).
    intros [_ [H|H]]; discriminate H.
Defined.

(** * Part III: further properties of the code *)

(** ** The TX channel as a byte stream *)

Lemma sync_storage_is_byte (s : Regs) (i : Inputs) :
  is_byte (tx_data_storage s) -> is_byte (tx_data_storage (sync s i)).
Proof.
  intros Hs. simpl. unfold CSRStorage_next.
  destruct (tx_data_re i); auto using trunc_is_byte.
Qed.

(** X1: with a host that polls [tx_ready] before it writes, the bridge delivers
    exactly the bytes the host asked to send, each once and in order: the
    bytes the consumer has taken, followed by the byte still waiting, are
    the byte that was waiting at the start followed by the bytes of the
    [tx_valid] pulses. *)
Theorem tx_polled_in_order (s : Regs) (ins : list Inputs) :
  is_byte (tx_data_storage s) ->
  polled s ins ->
  tx_transfers s ins ++ tx_pending (run s ins)
  = tx_pending s ++ tx_requests s ins.
Proof.
  revert s. induction ins as [|i ins IH]; intros s Hb Hp.
  { simpl. now rewrite app_nil_r. }
  destruct Hp as [Hpoll Hp].
  pose proof (IH (sync s i) (sync_storage_is_byte s i Hb) Hp) as IH'.
  cbn [tx_transfers tx_requests run].
  rewrite <- !app_assoc, IH'. clear IH IH' Hp.
  destruct s as [v d]. simpl in Hb.
  unfold tx_pending, sync, source_valid_next, CSRStorage_next.
  cbn [source_valid tx_data_storage comb source_valid_out source_data
       tx_ready_status] in *.
  destruct v; cbn [negb andb] in *.
  - destruct (Hpoll eq_refl) as [-> ->].
    rewrite trunc_byte by assumption.
    destruct (source_ready i); reflexivity.
  - destruct (tx_valid_re i); [reflexivity|].
    destruct (source_ready i); reflexivity.
Qed.

Lemma tx_polled_in_order_witness :
  let write := mkInputs false false true 65 false 0 false in
  let pulse := mkInputs false true false 0 false 0 false in
  let stall := mkInputs false false false 0 false 0 false in
  let take := mkInputs false false false 0 false 0 true in
  let write2 := mkInputs false false true 66 false 0 true in
  let ins := [write; pulse; stall; take; write2; pulse] in
  tx_transfers reset ins ++ tx_pending (run reset ins)
  = tx_pending reset ++ tx_requests reset ins /\
  tx_transfers reset ins = [65%Z] /\
  tx_requests reset ins = [65%Z; 66%Z].
Proof.
  intros write pulse stall take write2 ins.
  split; [|split; reflexivity].
  apply (tx_polled_in_order reset ins).
  - unfold is_byte; simpl; lia.
  - simpl. repeat split; intros; discriminate.
Defined.

(** X2: whatever the host does, the consumer never takes more bytes than the
    host asked to send: the transfers, plus the byte still waiting, are at
    most the byte waiting at the start plus the [tx_valid] pulses.  A pulse
    while a byte is waiting is how a request gets lost. *)
Theorem tx_transfers_bounded (s : Regs) (ins : list Inputs) :
  length (tx_transfers s ins) + length (tx_pending (run s ins))
  <= length (tx_pending s) + length (tx_requests s ins).
Proof.
  revert s. induction ins as [|i ins IH]; intros s.
  { simpl. lia. }
  specialize (IH (sync s i)).
  cbn [tx_transfers tx_requests run].
  rewrite !length_app.
  assert (Hstep : length (if source_valid_out (comb s i) && source_ready i
                          then [source_data (comb s i)] else [])
                  + length (tx_pending (sync s i))
                  <= length (tx_pending s)
                     + length (if tx_valid_re i
                               then [tx_data_storage (sync s i)] else [])).
  { destruct s as [v d]. unfold tx_pending, sync, source_valid_next.
    cbn [source_valid comb source_valid_out].
    destruct v, (tx_valid_re i), (source_ready i); simpl; lia. }
  lia.
Qed.

(** A pulse while a byte is waiting loses a request: the bound above can be
    strict. *)
Lemma tx_request_lost :
  let write := mkInputs false false true 65 false 0 false in
  let pulse := mkInputs false true false 0 false 0 false in
  let take := mkInputs false false false 0 false 0 true in
  let ins := [write; pulse; pulse; take; take] in
  length (tx_requests reset ins) = 2 /\
  length (tx_transfers reset ins) = 1 /\
  tx_pending (run reset ins) = [].
Proof. repeat split. Qed.

(** X3: the RX side never disturbs the TX side: two runs whose inputs agree on
    the [tx_valid] and [tx_data] writes and on the downstream [ready] keep
    the same registers, and show the same [tx_ready], downstream [valid]
    and data in every cycle, whatever [rx_ready] writes and upstream
    traffic they see. *)
Theorem tx_independent_of_rx (s : Regs) (ins1 ins2 : list Inputs) :
  Forall2 tx_inputs_eq ins1 ins2 ->
  run s ins1 = run s ins2 /\
  tx_ready_status <$> trace s ins1 = tx_ready_status <$> trace s ins2 /\
  source_valid_out <$> trace s ins1 = source_valid_out <$> trace s ins2 /\
  source_data <$> trace s ins1 = source_data <$> trace s ins2 /\
  tx_transfers s ins1 = tx_transfers s ins2.
Proof.
  intros H. revert s.
  induction H as [|i1 i2 ins1 ins2 (Hp & Hre & Hr & Hrdy) _ IH]; intros s.
  { repeat split. }
  assert (Hs : sync s i1 = sync s i2).
  { unfold sync, source_valid_next. now rewrite Hp, Hre, Hr, Hrdy. }
  cbn [run trace tx_transfers]. rewrite !fmap_cons, Hs, Hrdy.
  destruct (IH (sync s i2)) as (-> & -> & -> & -> & ->).
  repeat split.
Qed.

Lemma tx_independent_of_rx_witness :
  let a := mkInputs false true false 0 false 0 false in
  let b := mkInputs true true false 0 true 90 false in
  run reset [a] = run reset [b].
Proof.
  intros a b.
  apply (tx_independent_of_rx reset [a] [b]).
  repeat constructor.
Defined.

(** ** The LED blinker *)

Lemma trunc_mod (n v : Z) : (0 <= n)%Z -> trunc n v = (v mod 2 ^ n)%Z.
Proof. intros Hn. unfold trunc. now rewrite Z.land_ones. Qed.

Lemma sys_counter_after_succ (n : N) (c : Z) :
  sys_counter_after (N.succ n) c = sys_counter_next (sys_counter_after n c).
Proof. unfold sys_counter_after. now rewrite N.iter_succ. Qed.

(** X4: the 32-bit counter counts the clock edges modulo [2^32]: [n] edges
    after it held [c] it holds [c + n] truncated to 32 bits, so it wraps to
    0 after [2^32 - 1] instead of overflowing. *)
Theorem sys_counter_counts (n : N) (c : Z) :
  sys_counter_after n (trunc 32 c) = trunc 32 (c + Z.of_N n) /\
  sys_counter_after n 0 = (Z.of_N n mod 2 ^ 32)%Z /\
  sys_counter_after (2 ^ 32) 0 = 0%Z /\
  sys_counter_after (n + 2 ^ 32) 0 = sys_counter_after n 0.
Proof.
  assert (H : forall n c,
            sys_counter_after n (trunc 32 c) = trunc 32 (c + Z.of_N n)).
  { clear. intros n c. induction n as [|n IH] using N.peano_ind.
    - unfold sys_counter_after. simpl. now rewrite Z.add_0_r.
    - rewrite sys_counter_after_succ, IH. unfold sys_counter_next.
      rewrite !trunc_mod by lia. rewrite Zplus_mod_idemp_l.
      f_equal. lia. }
  assert (H0 : forall n, sys_counter_after n 0 = (Z.of_N n mod 2 ^ 32)%Z).
  { intros m. change 0%Z with (trunc 32 0) at 1.
    rewrite H, trunc_mod by lia. reflexivity. }
  split; [apply H|]. split; [apply H0|]. split.
  - rewrite H0. reflexivity.
  - rewrite !H0, N2Z.inj_add.
    change (Z.of_N (2 ^ 32)) with (1 * 2 ^ 32)%Z.
    now rewrite Z_mod_plus_full.
Qed.

Lemma testbit_add_pow2 (a k : Z) :
  (0 <= k)%Z -> Z.testbit (a + 2 ^ k) k = negb (Z.testbit a k).
Proof.
  intros Hk.
  rewrite !Z.testbit_odd, !Z.shiftr_div_pow2 by assumption.
  replace (a + 2 ^ k)%Z with (a + 1 * 2 ^ k)%Z by lia.
  rewrite Z.div_add by (apply Z.pow_nonzero; lia).
  rewrite Z.add_1_r, Z.odd_succ. symmetry. apply Z.negb_odd.
Qed.

(** X5: the green LED shows bit 26 of the number of clock edges since reset:
    it is off for the first [2^26] cycles, changes every [2^26] cycles, and
    so blinks with a period of [2^27] cycles; red and blue are driven to 1
    in every cycle. *)
Theorem rgb_led_blinks (n : N) :
  rgb_g (rgb_comb (sys_counter_after n 0)) = Z.testbit (Z.of_N n) 26 /\
  ((n < 2 ^ 26)%N -> rgb_g (rgb_comb (sys_counter_after n 0)) = false) /\
  rgb_g (rgb_comb (sys_counter_after (n + 2 ^ 26) 0))
    = negb (rgb_g (rgb_comb (sys_counter_after n 0))) /\
  rgb_g (rgb_comb (sys_counter_after (n + 2 ^ 27) 0))
    = rgb_g (rgb_comb (sys_counter_after n 0)) /\
  rgb_r (rgb_comb (sys_counter_after n 0)) = true /\
  rgb_b (rgb_comb (sys_counter_after n 0)) = true.
Proof.
  assert (Hg : forall m,
            rgb_g (rgb_comb (sys_counter_after m 0)) = Z.testbit (Z.of_N m) 26).
  { intros m. destruct (sys_counter_counts m 0) as (_ & -> & _).
    unfold rgb_comb. cbn [rgb_g]. apply Z.mod_pow2_bits_low. lia. }
  assert (Ht : forall m, Z.testbit (Z.of_N (m + 2 ^ 26)) 26
                         = negb (Z.testbit (Z.of_N m) 26)).
  { intros m. rewrite N2Z.inj_add.
    change (Z.of_N (2 ^ 26)) with (2 ^ 26)%Z.
    apply testbit_add_pow2. lia. }
  split; [apply Hg|]. split; [|split; [|split; [|split; reflexivity]]].
  - intros Hn. rewrite Hg.
    apply Z.bits_above_log2; [lia|].
    destruct (N.eq_dec n 0%N) as [->|Hne]; [simpl; lia|].
    apply Z.log2_lt_pow2; [lia|].
    change (2 ^ 26)%Z with (Z.of_N (2 ^ 26)). lia.
  - rewrite !Hg. apply Ht.
  - rewrite !Hg.
    replace (n + 2 ^ 27)%N with ((n + 2 ^ 26) + 2 ^ 26)%N
      by (change (2 ^ 27)%N with (2 ^ 26 + 2 ^ 26)%N; lia).
    rewrite !Ht. apply negb_involutive.
Qed.

Lemma rgb_led_blinks_witness :
  rgb_g (rgb_comb (sys_counter_after 1000 0)) = false.
Proof.
  apply (proj1 (proj2 (rgb_led_blinks 1000))). reflexivity.
Defined.

(** ** The MSI wiring *)

Lemma enumerate_from_elem {A} (n : nat) (l : list A) (x : A) :
  x ∈ l -> exists i, (i, x) ∈ enumerate_from n l.
Proof.
  revert n. induction l as [|y l IH]; intros n Hx; [inversion Hx|].
  apply elem_of_cons in Hx as [->|Hx].
  - exists n. left.
  - destruct (IH (S n) Hx) as [i Hi]. exists i. right. exact Hi.
Qed.

Lemma enumerate_from_indices {A} (n : nat) (l : list A) :
  (enumerate_from n l).*1 = seq n (length l) /\ (enumerate_from n l).*2 = l.
Proof.
  revert n. induction l as [|x l IH]; intros n; csimpl; [auto|].
  destruct (IH (S n)) as [-> ->]. auto.
Qed.

(** X6: the hardware wiring and the published constants agree: for every
    interrupt source [(name, signal)] of the dict there is an index [i] such
    that the allocation gives [i] to [name], the loop drives [irqs[i]] with
    [signal], and the loop publishes [name_INTERRUPT = i]. *)
Theorem msi_wiring_matches_constants
    (items : list (string * irq_signal)) (soc : SoC)
    (k : string) (v : irq_signal) :
  NoDup items.*1 ->
  (k, v) ∈ items ->
  exists i,
    msi_index items k = Some i /\
    (i, v) ∈ msi_comb (msi_loop items soc) /\
    (k +:+ "_INTERRUPT", ConstInt (Z.of_nat i)) ∈ constants (msi_loop items soc).
Proof.
  intros Hnd Hin.
  rewrite <- (sorted_Permutation items) in Hin.
  destruct (enumerate_from_elem 0 _ _ Hin) as [i Hi].
  fold (enumerate (sorted items)) in Hi.
  assert (Hki : (k, i) ∈ msi_indices items).
  { unfold msi_indices. apply list_elem_of_fmap. exists (i, (k, v)). auto. }
  exists i. split; [|split].
  - apply getitem_elem; [now apply msi_indices_NoDup_fst|exact Hki].
  - rewrite msi_loop_comb. apply elem_of_app. right.
    apply list_elem_of_fmap. exists (i, (k, v)). auto.
  - rewrite msi_loop_constants. apply elem_of_app. right.
    apply list_elem_of_fmap. exists (k, i). auto.
Qed.

Lemma msi_wiring_matches_constants_witness :
  exists i,
    msi_index msis "DMA_WRITER" = Some i /\
    (i, pcie_dma_writer_irq)
      ∈ msi_comb (msi_loop msis (mkSoC 65536 [] [] [] [])) /\
    ("DMA_WRITER" +:+ "_INTERRUPT", ConstInt (Z.of_nat i))
      ∈ constants (msi_loop msis (mkSoC 65536 [] [] [] [])).
Proof.
  apply (msi_wiring_matches_constants msis (mkSoC 65536 [] [] [] [])
           "DMA_WRITER" pcie_dma_writer_irq msis_NoDup).
  left.
Defined.

(** X7: every interrupt line the loop drives has a single driver: the loop adds
    one assignment per source, to the lines 0..N-1 in ascending order, each
    line once, and every signal of the dict is wired to one of them. *)
Theorem msi_single_driver (items : list (string * irq_signal)) (soc : SoC) :
  exists w : list (nat * irq_signal),
    msi_comb (msi_loop items soc) = msi_comb soc ++ w /\
    w.*1 = seq 0 (length items) /\
    NoDup w.*1 /\
    w.*2 ≡ₚ items.*2.
Proof.
  exists ((fun '(i, (_, v)) => (i, v)) <$> enumerate (sorted items)).
  split; [apply msi_loop_comb|].
  assert (H1 : ((fun '(i, (_, v)) => (i, v)) <$> enumerate (sorted items)).*1
               = (enumerate (sorted items)).*1).
  { rewrite <- list_fmap_compose. apply list_fmap_ext.
    intros _ [i [k v]] _. reflexivity. }
  assert (H2 : ((fun '(i, (_, v)) => (i, v)) <$> enumerate (sorted items)).*2
               = (enumerate (sorted items)).*2.*2).
  { rewrite <- !list_fmap_compose. apply list_fmap_ext.
    intros _ [i [k v]] _. reflexivity. }
  destruct (enumerate_from_indices 0 (sorted items)) as [E1 E2].
  fold (enumerate (sorted items)) in E1, E2.
  rewrite H1, H2, E1, E2, length_sorted.
  split; [reflexivity|]. split; [apply NoDup_seq|].
  now rewrite sorted_Permutation.
Qed.

(** *** The names of the published constants *)

Lemma string_length_app (s1 s2 : string) :
  String.length (s1 +:+ s2) = String.length s1 + String.length s2.
Proof.
  induction s1 as [|a s1 IH]; [reflexivity|].
  change (String a s1 +:+ s2) with (String a (s1 +:+ s2)).
  cbn [String.length]. now rewrite IH.
Qed.

Lemma string_app_inj_r (k1 k2 s : string) :
  k1 +:+ s = k2 +:+ s -> k1 = k2.
Proof.
  revert k2. induction k1 as [|a k1 IH]; intros [|b k2] H.
  - reflexivity.
  - apply (f_equal String.length) in H.
    rewrite !string_length_app in H. cbn [String.length] in H. lia.
  - apply (f_equal String.length) in H.
    rewrite !string_length_app in H. cbn [String.length] in H. lia.
  - change (String a (k1 +:+ s) = String b (k2 +:+ s)) in H.
    injection H as -> H. f_equal. now apply IH.
Qed.

(** X8: distinct source names give distinct constant names: the loop publishes
    one constant per source and no name twice. *)
Theorem msi_constant_names_distinct
    (items : list (string * irq_signal)) (soc : SoC) :
  NoDup items.*1 ->
  exists cs : list (string * constant_value),
    constants (msi_loop items soc) = constants soc ++ cs /\
    length cs = length items /\
    NoDup cs.*1.
Proof.
  intros Hnd.
  exists ((fun '(k, i) => (k +:+ "_INTERRUPT", ConstInt (Z.of_nat i)))
            <$> msi_indices items).
  split; [apply msi_loop_constants|]. split.
  - rewrite length_fmap. unfold msi_indices. rewrite length_fmap.
    destruct (enumerate_from_indices 0 (sorted items)) as [E1 _].
    apply (f_equal length) in E1.
    rewrite length_fmap, length_seq, length_sorted in E1. exact E1.
  - assert (H : ((fun '(k, i) => (k +:+ "_INTERRUPT", ConstInt (Z.of_nat i)))
                   <$> msi_indices items).*1
                = (fun k => k +:+ "_INTERRUPT") <$> (msi_indices items).*1).
    { rewrite <- !list_fmap_compose. apply list_fmap_ext.
      intros _ [k i] _. reflexivity. }
    rewrite H. apply NoDup_fmap_2; [|now apply msi_indices_NoDup_fst].
    intros k1 k2. apply string_app_inj_r.
Qed.

Lemma msi_constant_names_distinct_witness :
  exists cs : list (string * constant_value),
    constants (msi_loop msis (mkSoC 65536 [] [] [] [])) = [] ++ cs /\
    length cs = length msis /\
    NoDup cs.*1.
Proof.
  apply (msi_constant_names_distinct msis (mkSoC 65536 [] [] [] []) msis_NoDup).
Defined.

(** ** What the composition registers *)

Lemma SoC_fields_eq (soc1 soc2 : SoC) :
  integrated_main_ram_size soc1 = integrated_main_ram_size soc2 ->
  csrs soc1 = csrs soc2 ->
  interrupts soc1 = interrupts soc2 ->
  msi_comb soc1 = msi_comb soc2 ->
  constants soc1 = constants soc2 ->
  soc1 = soc2.
Proof. destruct soc1, soc2; simpl; congruence. Qed.

(** [add_csr] and [add_interrupt] on an explicit SoC. *)
Lemma add_csr_mkSoC (name : string) r c i m k :
  add_csr name (mkSoC r c i m k) = mkSoC r (c ++ [name]) i m k.
Proof. reflexivity. Qed.

Lemma add_interrupt_mkSoC (name : string) r c i m k :
  add_interrupt name (mkSoC r c i m k) = mkSoC r c (i ++ [name]) m k.
Proof. reflexivity. Qed.

(** What the loop over the interrupt sources of the target adds. *)
Lemma msi_loop_msis_fields (soc : SoC) :
  integrated_main_ram_size (msi_loop msis soc) = integrated_main_ram_size soc /\
  csrs (msi_loop msis soc) = csrs soc /\
  interrupts (msi_loop msis soc) = interrupts soc /\
  msi_comb (msi_loop msis soc)
  = msi_comb soc ++ [(0, pcie_dma_reader_irq); (1, pcie_dma_writer_irq)] /\
  constants (msi_loop msis soc)
  = constants soc ++ [("DMA_READER_INTERRUPT", ConstInt 0);
                      ("DMA_WRITER_INTERRUPT", ConstInt 1)].
Proof.
  destruct (msi_loop_other msis soc) as (Hc & Hi & Hr).
  rewrite Hc, Hi, Hr, msi_loop_comb, msi_loop_constants.
  repeat split; f_equal; vm_compute; reflexivity.
Qed.

Lemma msi_loop_msis_mkSoC r c i m k :
  msi_loop msis (mkSoC r c i m k)
  = mkSoC r c i
      (m ++ [(0, pcie_dma_reader_irq); (1, pcie_dma_writer_irq)])
      (k ++ [("DMA_READER_INTERRUPT", ConstInt 0);
             ("DMA_WRITER_INTERRUPT", ConstInt 1)]).
Proof.
  destruct (msi_loop_msis_fields (mkSoC r c i m k)) as (H1 & H2 & H3 & H4 & H5).
  apply SoC_fields_eq; assumption.
Qed.

Section CompositionRegions.
Variable SoCSDRAM_init : bool -> SoC.
Variable register_sdram : SoC -> SoC.

(** X9: with integrated main RAM (as the target configures it) no DDR3 PHY is
    registered and [register_sdram] is not reached; on top of what
    [SoCSDRAM.__init__] leaves, the composition registers the CSR regions
    crg, dna, xadc, pcie_phy, pcie_dma, pcie_msi in this order, followed by
    uart and pcie_uart when the PCIe UART is enabled; it registers the uart
    interrupt only in that case; it wires line 0 to the DMA reader and
    line 1 to the DMA writer and publishes the two matching constants; and
    the base SoC gets its own UART exactly when the PCIe UART is disabled. *)
Theorem NereidSoC_init_registers (with_pcie_uart : bool) :
  let base := SoCSDRAM_init (negb with_pcie_uart) in
  integrated_main_ram_size base <> 0%Z ->
  NereidSoC_init SoCSDRAM_init register_sdram with_pcie_uart
  = {| integrated_main_ram_size := integrated_main_ram_size base;
       csrs := csrs base
               ++ ["crg"; "dna"; "xadc"; "pcie_phy"; "pcie_dma"; "pcie_msi"]
               ++ (if with_pcie_uart then ["uart"; "pcie_uart"] else []);
       interrupts := interrupts base
                     ++ (if with_pcie_uart then ["uart"] else []);
       msi_comb := msi_comb base
                   ++ [(0, pcie_dma_reader_irq); (1, pcie_dma_writer_irq)];
       constants := constants base
                    ++ [("DMA_READER_INTERRUPT", ConstInt 0);
                        ("DMA_WRITER_INTERRUPT", ConstInt 1)] |}.
Proof.
  intros base Hram. unfold base in *. clear base.
  unfold NereidSoC_init, NereidSoC_init_items. cbv zeta.
  destruct (SoCSDRAM_init (negb with_pcie_uart)) as [r c i m k].
  cbn [integrated_main_ram_size] in Hram. apply Z.eqb_neq in Hram.
  rewrite !add_csr_mkSoC. cbn [integrated_main_ram_size]. rewrite Hram.
  rewrite !add_csr_mkSoC, msi_loop_msis_mkSoC.
  destruct with_pcie_uart.
  - rewrite add_csr_mkSoC, add_interrupt_mkSoC, add_csr_mkSoC.
    cbn [integrated_main_ram_size csrs interrupts msi_comb constants].
    f_equal. now rewrite <- !app_assoc.
  - cbn [integrated_main_ram_size csrs interrupts msi_comb constants].
    f_equal; [now rewrite <- !app_assoc|now rewrite app_nil_r].
Qed.
End CompositionRegions.

Lemma NereidSoC_init_registers_witness :
  let base := fun with_uart : bool =>
    mkSoC 65536 (if with_uart then ["ctrl"; "uart"] else ["ctrl"]) [] [] [] in
  csrs (NereidSoC_init base id true)
  = ["ctrl"; "crg"; "dna"; "xadc"; "pcie_phy"; "pcie_dma"; "pcie_msi";
     "uart"; "pcie_uart"].
Proof.
  intros base.
  rewrite (NereidSoC_init_registers base id true); [reflexivity|].
  discriminate.
Defined.

(** ** The build script *)

(** X10: the gateware is compiled unless one of the arguments after the program
    name is exactly [no-compile]; the program name itself does not
    count. *)
Theorem compile_gateware_spec (argv : list string) :
  (compile_gateware argv = false
   <-> exists n, argv !! S n = Some "no-compile") /\
  compile_gateware (take 1 argv) = true.
Proof.
  unfold compile_gateware. split.
  - rewrite negb_false_iff, str_in_spec, list_elem_of_lookup.
    split; intros [n Hn]; exists n.
    + now rewrite lookup_drop in Hn.
    + now rewrite lookup_drop.
  - rewrite drop_ge; [reflexivity|]. rewrite length_take. lia.
Qed.

Lemma compile_gateware_spec_witness :
  compile_gateware ["nereid.py"; "no-compile"] = false /\
  compile_gateware ["no-compile"] = true.
Proof.
  split.
  - apply (proj2 (proj1 (compile_gateware_spec ["nereid.py"; "no-compile"]))).
    exists 0. reflexivity.
  - apply (proj2 (compile_gateware_spec ["no-compile"])).
Defined.

(** ** The resources of the platform *)

(** X11: whatever the valid device and revision, the base constructor receives a
    table that starts with the common resources, offers the same
    [(name, number)] identifiers on both board revisions, and offers each
    identifier once, so that a request by name and number has one answer
    and a design that builds on one revision finds its resources on the
    other. *)
Theorem Platform_io_identifiers
    {E P K : Type}
    (LatticePlatform_init : string -> list Resource -> string -> K -> E + P)
    (device revision toolchain : string) (kwargs : K) :
  valid_selector device revision ->
  exists io : list Resource,
    Platform_init LatticePlatform_init device revision toolchain kwargs
    = match LatticePlatform_init (device +:+ "-6BG381C") io toolchain kwargs with
      | inl e => Raised (BaseError e)
      | inr p => Returned p
      end /\
    _io_common `prefix_of` io /\
    resource_id <$> io = resource_id <$> (_io_common ++ _io_2_0) /\
    NoDup (resource_id <$> io).
Proof.
  intros Hv.
  exists (_io_common ++ (if String.eqb revision "1.7" then _io_1_7 else _io_2_0)).
  split; [now apply Platform_init_valid|].
  split; [now apply prefix_app_r|].
  assert (Hids : resource_id <$> _io_1_7 = resource_id <$> _io_2_0)
    by reflexivity.
  assert (Hall : resource_id <$>
                   (_io_common ++ (if String.eqb revision "1.7"
                                   then _io_1_7 else _io_2_0))
                 = resource_id <$> (_io_common ++ _io_2_0)).
  { rewrite !fmap_app. f_equal.
    destruct (String.eqb revision "1.7"); [exact Hids|reflexivity]. }
  split; [exact Hall|].
  rewrite Hall.
  apply (bool_decide_unpack _). vm_compute. exact I.
Qed.

Lemma Platform_io_identifiers_witness :
  exists io : list Resource,
    Platform_init (fun d io t (_ : unit) => inr (mkLatticePlatform d io t) : unit + _)
                  "LFE5U-85F" "1.7" "trellis" tt
    = Returned (mkLatticePlatform "LFE5U-85F-6BG381C" io "trellis") /\
    _io_common `prefix_of` io /\
    resource_id <$> io = resource_id <$> (_io_common ++ _io_2_0) /\
    NoDup (resource_id <$> io).
Proof.
  apply (Platform_io_identifiers
           (fun d io t (_ : unit) => inr (mkLatticePlatform d io t) : unit + _)
           "LFE5U-85F" "1.7" "trellis" tt).
  split; [|left; reflexivity].
  unfold supported_devices. rewrite !elem_of_cons. auto.
Defined.

